(** * eslint-plugin-pino-logging: the five rules, embedded and verified

    The plugin is a set of five independent ESLint rules.  Each rule exports a
    [create(context)] that returns a [CallExpression(node)] handler; the
    handler inspects the syntactic shape of one call and calls
    [context.report] zero or more times.  The embedding below follows the
    source file by file (one module per rule); a handler is a function from
    the visited node to the list of reports it makes, in the order it makes
    them. *)

From Stdlib Require Import Bool List String Ascii NArith Lia.
Import ListNotations.

Local Open Scope string_scope.
Local Open Scope list_scope.

(** ** JavaScript strings

    A JS string is a sequence of UTF-16 code units.  The embedding uses Rocq's
    [string], so it covers the strings whose code units are below 256 (ASCII
    and the Latin-1 supplement); a character is identified with its code
    unit. *)

Definition code (c : ascii) : N := N_of_ascii c.

Definition between (lo hi : N) (c : ascii) : bool :=
  ((lo <=? code c) && (code c <=? hi))%N.

(** The character classes that occur in the regular expressions. *)
Definition is_lower (c : ascii) : bool := between 97 122 c.      (* [a-z] *)
Definition is_upper (c : ascii) : bool := between 65 90 c.       (* [A-Z] *)
Definition is_digit (c : ascii) : bool := between 48 57 c.       (* [0-9] *)
Definition is_underscore (c : ascii) : bool := (code c =? 95)%N. (* _ *)

(** Upper-case letters of the Latin-1 supplement: U+00C0..U+00DE but for the
    multiplication sign U+00D7. *)
Definition is_latin1_upper (c : ascii) : bool :=
  between 192 222 c && negb (code c =? 215)%N.

(** [String.prototype.toLowerCase] on one code unit below 256: the letters
    A-Z and the upper-case letters of the Latin-1 supplement move up by 32,
    everything else stays. *)
Definition toLowerCase_char (c : ascii) : ascii :=
  if is_upper c || is_latin1_upper c then ascii_of_N (code c + 32) else c.

Fixpoint toLowerCase (s : string) : string :=
  match s with
  | EmptyString => EmptyString
  | String c r => String (toLowerCase_char c) (toLowerCase r)
  end.

(** [allb p s]: every character of [s] satisfies [p]. *)
Fixpoint allb (p : ascii -> bool) (s : string) : bool :=
  match s with
  | EmptyString => true
  | String c r => p c && allb p r
  end.

(** [Array.prototype.includes] on an array of strings, searched for a string:
    strict equality of strings is equality of their code units. *)
Definition includes (l : list string) (x : string) : bool :=
  existsb (fun y => String.eqb y x) l.

(** *** Case-insensitive search for a literal pattern

    The six sensitive patterns are regular expressions whose source is a
    literal run of ASCII letters, with the [i] flag and without anchors:
    [pattern.test(s)] is a search for the source in [s], comparing characters
    after canonicalisation.  Without the [u] flag canonicalisation upper-cases
    a code unit, and never maps a code unit of 128 or more to one below 128;
    against an ASCII letter of the pattern it therefore is the comparison
    below. *)
Definition ascii_upper (c : ascii) : ascii :=
  if is_lower c then ascii_of_N (code c - 32) else c.

Definition ci_eq (a b : ascii) : bool :=
  Ascii.eqb (ascii_upper a) (ascii_upper b).

Fixpoint prefix_i (p s : string) : bool :=
  match p with
  | EmptyString => true
  | String a p' =>
      match s with
      | EmptyString => false
      | String b s' => ci_eq a b && prefix_i p' s'
      end
  end.

(** [test_i source s] is [/source/i.test(s)]. *)
Fixpoint test_i (source s : string) : bool :=
  prefix_i source s ||
  match s with
  | EmptyString => false
  | String _ s' => test_i source s'
  end.

(** ** Syntax nodes (ESTree)

    Every node carries a [type]; the rules test it with [node.type === '...']
    and read a few fields.  A test of the type is a match on the
    constructor.  The fields kept are the ones the rules read, and the
    [computed] flag of member accesses and properties, which tells
    [logger.info] from [logger[info]] and [{ err: e }] from [{ [err]: e }]:
    in both pairs the [property] (resp. [key]) node is the same
    [Identifier]. *)

(** The value of a [Literal] node; [typeof value === 'string'] holds for
    [LString] only. *)
Inductive literal : Type :=
| LString (value : string)
| LNumber (raw : string)
| LBoolean (value : bool)
| LNull
| LRegExp (pattern flags : string)
| LBigInt (bigint : string).

#[warnings="-register-all"]
Inductive node : Type :=
| Identifier (name : string)
| Literal (value : literal)
| TemplateLiteral (quasis : list string) (expressions : list node)
| BinaryExpression (operator : string) (left right : node)
| ObjectExpression (properties : list node)
| Property (key value : node) (computed : bool)
| SpreadElement (argument : node)
| MemberExpression (object property : node) (computed : bool)
| CallExpression (callee : node) (arguments : list node)
| OtherNode (text : string).
(** [OtherNode] stands for a node of any type no rule names ([ThisExpression],
    [ArrayExpression], [PrivateIdentifier], ...), kept by its source text. *)

(** ** Reports

    [context.report] receives the anchor node, either a literal [message] or
    a [messageId] with its [data], and possibly a [fix].  A [fix] function
    that returns [null] applies nothing: the report then has no fix. *)
Inductive message : Type :=
| Message (text : string)
| MessageId (id : string) (data : list (string * string)).

Inductive edit : Type :=
| replaceText (target : node) (text : string).

Record report : Type := mkReport {
  r_node : node;
  r_message : message;
  r_fix : option edit
}.

(** The [arguments] of a call, and [node.callee.property.name]; the handlers
    read them only behind their [isLoggerCall] guard, where the node is a
    call whose callee is a member access on an [Identifier] property. *)
Definition arguments_of (n : node) : list node :=
  match n with
  | CallExpression _ args => args
  | _ => []
  end.

Definition callee_property_name (n : node) : string :=
  match n with
  | CallExpression (MemberExpression _ (Identifier name) _) _ => name
  | _ => ""
  end.

Definition logMethods : list string :=
  ["trace"; "debug"; "info"; "warn"; "error"; "fatal"].

(** ** The call classifier

    [isLoggerCall(node)]: the function is written out, with the same text, in
    no-sensitive-data.js, no-string-concat.js, field-naming.js and
    requires-message.js.  It reads the type of the callee, the type and name
    of its [object] and the type and name of its [property]; it does not read
    [computed]. *)
Definition isLoggerCall (n : node) : bool :=
  match n with
  | CallExpression (MemberExpression object property _) _ =>
      match object with
      | Identifier name =>
          if String.eqb name "logger" || String.eqb name "log" then
            match property with
            | Identifier pname => includes logMethods pname
            | _ => false
            end
          else false
      | _ => false
      end
  | _ => false
  end.

(** ** Rule: no-sensitive-data *)
Module NoSensitiveData.

Definition SENSITIVE_FIELD_NAMES : list string :=
  [ "password"; "pwd"; "passwd"; "secret"; "api_key"; "apikey"; "token";
    "access_token"; "refresh_token"; "jwt"; "bearer"; "auth";
    "authorization"; "credit_card"; "card_number"; "cvv"; "ssn";
    "private_key"; "privatekey" ].

(** The sources of the six patterns; each is used as [/source/i]. *)
Definition SENSITIVE_PATTERNS : list string :=
  [ "password"; "secret"; "token"; "key"; "auth"; "credential" ].

Definition sensitive_message (name : string) : message :=
  Message ("Sensitive field '" ++ name ++
           "' should not be logged. Use serializers to redact sensitive data.").

Definition potentially_sensitive_message (name : string) : message :=
  Message ("Potentially sensitive field '" ++ name ++
           "' detected. Use serializers if this contains sensitive data.").

(** The inner loop over the patterns: report at the first one that matches
    and [break]. *)
Fixpoint check_patterns (patterns : list string) (prop : node)
    (name keyName : string) : list report :=
  match patterns with
  | [] => []
  | pattern :: more =>
      if test_i pattern keyName
      then [mkReport prop (potentially_sensitive_message name) None]
      else check_patterns more prop name keyName
  end.

(** The body of the loop over the properties. *)
Definition check_property (prop : node) : list report :=
  match prop with
  | Property (Identifier name) _ _ =>
      let keyName := toLowerCase name in
      if includes SENSITIVE_FIELD_NAMES keyName
      then [mkReport prop (sensitive_message name) None]
      else check_patterns SENSITIVE_PATTERNS prop name keyName
  | _ => []
  end.

Definition checkObjectForSensitiveData (n : node) : list report :=
  match n with
  | ObjectExpression properties => flat_map check_property properties
  | _ => []
  end.

(** [context.options[0]], when given: an object that may have
    [blockedFields]. *)
Record Options : Type := { blockedFields : option (list string) }.

(** [options.blockedFields || []] with [options = context.options[0] || {}]. *)
Definition customBlockedFields (options : option Options) : list string :=
  match options with
  | Some {| blockedFields := Some fields |} => fields
  | _ => []
  end.

Definition allBlockedFields (options : option Options) : list string :=
  SENSITIVE_FIELD_NAMES ++ map toLowerCase (customBlockedFields options).

(** [create(context)] builds [allBlockedFields] and returns the handler.  The
    handler calls [checkObjectForSensitiveData(firstArg, context)], which
    reads the constant [SENSITIVE_FIELD_NAMES]. *)
Definition create (options : option Options) : node -> list report :=
  let allBlockedFields := allBlockedFields options in
  fun n =>
    if negb (isLoggerCall n) then []
    else
      match arguments_of n with
      | (ObjectExpression _ as firstArg) :: _ =>
          checkObjectForSensitiveData firstArg
      | _ => []
      end.

End NoSensitiveData.

(** ** Rule: no-string-concat *)
Module NoStringConcat.

Definition hasVariableInterpolation (n : node) : bool :=
  match n with
  | TemplateLiteral _ expressions => negb (Nat.eqb (List.length expressions) 0)
  | BinaryExpression operator _ _ => String.eqb operator "+"
  | _ => false
  end.

(** The body of the loop over the arguments: two independent tests. *)
Definition check_argument (arg : node) : list report :=
  (match arg with
   | TemplateLiteral _ expressions =>
       if Nat.ltb 0 (List.length expressions)
       then [mkReport arg (MessageId "noTemplateLiteral" []) None]
       else []
   | _ => []
   end) ++
  (match arg with
   | BinaryExpression operator _ _ =>
       if String.eqb operator "+"
       then [mkReport arg (MessageId "noStringConcat" []) None]
       else []
   | _ => []
   end).

Definition create : node -> list report :=
  fun n =>
    if negb (isLoggerCall n) then []
    else flat_map check_argument (arguments_of n).

End NoStringConcat.

(** ** Rule: error-requires-err *)
Module ErrorRequiresErr.

Definition isLoggerErrorCall (n : node) : bool :=
  match n with
  | CallExpression (MemberExpression object property _) _ =>
      match object with
      | Identifier name =>
          if String.eqb name "logger" || String.eqb name "log" then
            match property with
            | Identifier pname =>
                String.eqb pname "error" || String.eqb pname "fatal"
            | _ => false
            end
          else false
      | _ => false
      end
  | _ => false
  end.

(** [hasErrProperty(node)], called on [firstArg], which may be [undefined]. *)
Definition hasErrProperty (n : option node) : bool :=
  match n with
  | Some (ObjectExpression properties) =>
      existsb
        (fun prop =>
           match prop with
           | Property (Identifier name) _ _ =>
               String.eqb name "err" || String.eqb name "error"
           | _ => false
           end)
        properties
  | _ => false
  end.

Definition missingErrObject (n : node) : report :=
  mkReport n (MessageId "missingErrObject" []) None.

(** [firstArg && firstArg.type === 'Literal' &&
     typeof firstArg.value === 'string'] *)
Definition is_string_literal (firstArg : option node) : bool :=
  match firstArg with
  | Some (Literal (LString _)) => true
  | _ => false
  end.

(** [node.arguments[0]] is [undefined] when there is no argument. *)
Definition create : node -> list report :=
  fun n =>
    if negb (isLoggerErrorCall n) then []
    else
      let firstArg := hd_error (arguments_of n) in
      if is_string_literal firstArg then [missingErrObject n]
      else
        match firstArg with
        | Some (ObjectExpression _) =>
            if negb (hasErrProperty firstArg) then [missingErrObject n]
            else []
        | Some _ => []
        | None => [missingErrObject n]
        end.

End ErrorRequiresErr.

(** ** Rule: field-naming *)
Module FieldNaming.

(** [/^[a-z][a-z0-9_]*$/.test(str)] *)
Definition isSnakeCase (str : string) : bool :=
  match str with
  | EmptyString => false
  | String c r =>
      is_lower c &&
      allb (fun x => is_lower x || is_digit x || is_underscore x) r
  end.

(** [/^[a-z][a-zA-Z0-9]*$/.test(str)] *)
Definition isCamelCase (str : string) : bool :=
  match str with
  | EmptyString => false
  | String c r =>
      is_lower c && allb (fun x => is_lower x || is_upper x || is_digit x) r
  end.

(** [/^[A-Z][a-zA-Z0-9]*$/.test(str)] *)
Definition isPascalCase (str : string) : bool :=
  match str with
  | EmptyString => false
  | String c r =>
      is_upper c && allb (fun x => is_lower x || is_upper x || is_digit x) r
  end.

(** [str.replace(/([A-Z])/g, '_$1')]: an underscore before every [A-Z]. *)
Fixpoint underscore_uppercase (str : string) : string :=
  match str with
  | EmptyString => EmptyString
  | String c r =>
      if is_upper c then String "_" (String c (underscore_uppercase r))
      else String c (underscore_uppercase r)
  end.

(** [str.replace(/^_/, '')]: drop one underscore at the start. *)
Definition strip_leading_underscore (str : string) : string :=
  match str with
  | String c r => if is_underscore c then r else str
  | EmptyString => EmptyString
  end.

Definition toSnakeCase (str : string) : string :=
  strip_leading_underscore (toLowerCase (underscore_uppercase str)).

(** [context.options[0]], when given: an object that may have
    [convention]. *)
Record Options : Type := { convention : option string }.

(** [options.convention || 'snake_case']: the empty string is falsy. *)
Definition convention_of (options : option Options) : string :=
  match options with
  | Some {| convention := Some c |} =>
      if String.eqb c "" then "snake_case" else c
  | _ => "snake_case"
  end.

Definition checkNaming (convention fieldName : string) : bool :=
  if String.eqb convention "snake_case" then isSnakeCase fieldName
  else if String.eqb convention "camelCase" then isCamelCase fieldName
  else true.

Definition getSuggestion (convention fieldName : string) : string :=
  if String.eqb convention "snake_case" then toSnakeCase fieldName
  else fieldName.

Definition standardFields : list string :=
  [ "err"; "error"; "req"; "res"; "msg"; "time"; "level"; "pid"; "hostname" ].

(** The body of the loop over the properties.  The report is anchored at the
    key; its [fix] replaces the text of the key, or returns [null]. *)
Definition check_property (convention : string) (prop : node) : list report :=
  match prop with
  | Property (Identifier fieldName as key) _ _ =>
      if includes standardFields fieldName then []
      else if negb (checkNaming convention fieldName) then
        let suggestion := getSuggestion convention fieldName in
        [ mkReport key
            (MessageId "incorrectNaming"
               [ ("fieldName", fieldName);
                 ("convention", convention);
                 ("suggestion", suggestion) ])
            (if negb (String.eqb suggestion fieldName)
                && checkNaming convention suggestion
             then Some (replaceText key suggestion)
             else None) ]
      else []
  | _ => []
  end.

Definition create (options : option Options) : node -> list report :=
  let convention := convention_of options in
  fun n =>
    if negb (isLoggerCall n) then []
    else
      match arguments_of n with
      | ObjectExpression properties :: _ =>
          flat_map (check_property convention) properties
      | _ => []
      end.

End FieldNaming.

(** ** Rule: requires-message *)
Module RequiresMessage.

Definition missingMessage (n : node) (methodName : string) : report :=
  mkReport n (MessageId "missingMessage" [("method", methodName)]) None.

Definition create : node -> list report :=
  fun n =>
    if negb (isLoggerCall n) then []
    else
      let methodName := callee_property_name n in
      match arguments_of n with
      | [] => [missingMessage n methodName]
      | [firstArg] =>
          match firstArg with
          | ObjectExpression _ => [missingMessage n methodName]
          | _ => []
          end
      | _ => []
      end.

End RequiresMessage.

(** ** The plugin

    The index exports the five rules, and its recommended configuration turns
    all of them on: on one node the host collects the reports of each. *)
Definition run_all (blocked : option NoSensitiveData.Options)
    (naming : option FieldNaming.Options) (n : node) : list report :=
  NoSensitiveData.create blocked n ++
  NoStringConcat.create n ++
  ErrorRequiresErr.create n ++
  FieldNaming.create naming n ++
  RequiresMessage.create n.

(** ** Vocabulary of the statements *)

(** The characters of a name that is "all lowercase with underscores". *)
Definition snake_char (c : ascii) : bool :=
  is_lower c || is_digit c || is_underscore c.

(** [object.method(args)] when [computed] is [false], [object[method](args)]
    when it is [true]. *)
Definition member_call (object method : string) (computed : bool)
    (args : list node) : node :=
  CallExpression (MemberExpression (Identifier object) (Identifier method)
                    computed) args.

(** What the structured-logging rule says about an argument it reports. *)
Definition concat_report (arg : node) : report :=
  match arg with
  | TemplateLiteral _ _ => mkReport arg (MessageId "noTemplateLiteral" []) None
  | _ => mkReport arg (MessageId "noStringConcat" []) None
  end.

(** [no_err_key properties]: no property has an [Identifier] key named [err]
    or [error]. *)
Definition no_err_key (properties : list node) : Prop :=
  forall name value computed,
    In (Property (Identifier name) value computed) properties ->
    name <> "err" /\ name <> "error".

(** The characters [[a-zA-Z0-9]] of the camelCase and PascalCase patterns. *)
Definition camel_char (c : ascii) : bool :=
  is_lower c || is_upper c || is_digit c.

(** [same_i p m]: [m] is [p] letter for letter, up to the case of the ASCII
    letters. *)
Fixpoint same_i (p m : string) : bool :=
  match p, m with
  | EmptyString, EmptyString => true
  | String a p', String b m' => ci_eq a b && same_i p' m'
  | _, _ => false
  end.

(** The name of an identifier key, for a node of an object literal's
    [properties]. *)
Definition key_name (prop : node) : option string :=
  match prop with
  | Property (Identifier name) _ _ => Some name
  | _ => None
  end.

(** The identifier keys of an object literal, in order; spread elements and
    properties with any other kind of key contribute nothing. *)
Definition identifier_keys (properties : list node) : list string :=
  flat_map
    (fun prop => match key_name prop with Some name => [name] | None => [] end)
    properties.

(** A plain identifier key [err] or [error]: written as [{ err: e }], not in
    brackets as the computed key of [{ [err]: e }]. *)
Definition plain_err_key (prop : node) : bool :=
  match prop with
  | Property (Identifier name) _ false =>
      String.eqb name "err" || String.eqb name "error"
  | _ => false
  end.

(** * Properties *)

(** ** Characters and strings *)

(** A fact about one character is settled on each of the 256 code units. *)
Ltac each_char c :=
  destruct c as [[] [] [] [] [] [] [] []]; vm_compute;
  try reflexivity; try discriminate; auto.

Lemma snake_camel_char (c : ascii) :
  (is_lower c || is_digit c || is_underscore c)
    && (is_lower c || is_upper c || is_digit c)
  = is_lower c || is_digit c.
Proof. each_char c. Qed.

Lemma snake_char_not_upper (c : ascii) :
  is_lower c || is_digit c || is_underscore c = true -> is_upper c = false.
Proof. each_char c. Qed.

Lemma snake_char_lower_fixed (c : ascii) :
  is_lower c || is_digit c || is_underscore c = true -> toLowerCase_char c = c.
Proof. each_char c. Qed.

Lemma allb_andb (p q : ascii -> bool) (s : string) :
  allb p s && allb q s = allb (fun c => p c && q c) s.
Proof.
  induction s as [|c r IH]; simpl; [reflexivity|].
  rewrite <- IH.
  destruct (p c), (q c), (allb p r), (allb q r); reflexivity.
Qed.

Lemma allb_ext (p q : ascii -> bool) (s : string) :
  (forall c, p c = q c) -> allb p s = allb q s.
Proof.
  intros E; induction s as [|c r IH]; simpl; [reflexivity|].
  now rewrite E, IH.
Qed.

Lemma includes_In (l : list string) (x : string) :
  includes l x = true <-> In x l.
Proof.
  unfold includes. rewrite existsb_exists. split.
  - intros [y [Hy E]]. apply String.eqb_eq in E. now subst.
  - intros H. exists x. split; [assumption | apply String.eqb_refl].
Qed.

(** ** The case analyser (field-naming.js) *)

Import FieldNaming.

Example toSnakeCase_userId : toSnakeCase "userId" = "user_id".
Proof. reflexivity. Qed.

(** A run of capitals gets one underscore per capital. *)
Example toSnakeCase_UserID : toSnakeCase "UserID" = "user_i_d".
Proof. reflexivity. Qed.

Example isSnakeCase_rejects :
  isSnakeCase "userId" = false /\ isSnakeCase "_id" = false /\
  isSnakeCase "1st" = false /\ isSnakeCase "" = false.
Proof. repeat split. Qed.

(** C3, as stated, fails: the all-lowercase name [abc] is accepted by both
    predicates. *)
Lemma snake_and_camel_both_accept_abc :
  isSnakeCase "abc" = true /\ isCamelCase "abc" = true.
Proof. split; reflexivity. Qed.

(** C3 (amended): [isSnakeCase s] and [isCamelCase s] are both true exactly
    when [s] starts with a lowercase letter and continues with lowercase
    letters and digits only; a string with an underscore or an uppercase
    letter satisfies at most one of the two. *)
Theorem snake_and_camel_overlap (s : string) :
  (isSnakeCase s = true /\ isCamelCase s = true) <->
  (exists c r, s = String c r /\ is_lower c = true /\
               allb (fun x => is_lower x || is_digit x) r = true).
Proof.
  split.
  - destruct s as [|c r]; simpl; [intros [H _]; discriminate|].
    intros [Hs Hc].
    apply andb_true_iff in Hs as [Hl Hs], Hc as [_ Hc].
    exists c, r. repeat split; trivial.
    erewrite <- allb_ext by (intro; apply snake_camel_char).
    rewrite <- allb_andb, Hs, Hc. reflexivity.
  - intros [c [r [-> [Hl Hr]]]]. simpl. rewrite Hl. simpl.
    erewrite <- allb_ext in Hr by (intro; apply snake_camel_char).
    rewrite <- allb_andb in Hr. apply andb_true_iff in Hr. tauto.
Qed.

(** *** toSnakeCase on names that are already lowercase *)

Lemma underscore_uppercase_id (s : string) :
  allb snake_char s = true -> underscore_uppercase s = s.
Proof.
  induction s as [|c r IH]; simpl; [reflexivity|].
  intros H. apply andb_true_iff in H as [Hc Hr].
  rewrite (snake_char_not_upper c Hc), (IH Hr). reflexivity.
Qed.

Lemma toLowerCase_id (s : string) :
  allb snake_char s = true -> toLowerCase s = s.
Proof.
  induction s as [|c r IH]; simpl; [reflexivity|].
  intros H. apply andb_true_iff in H as [Hc Hr].
  rewrite (snake_char_lower_fixed c Hc), (IH Hr). reflexivity.
Qed.

(** C4, as stated, fails: [_a] consists of an underscore and a lowercase
    letter, and [toSnakeCase] drops its underscore. *)
Lemma toSnakeCase_drops_leading_underscore :
  allb snake_char "_a" = true /\ toSnakeCase "_a" = "a" /\
  toSnakeCase "_a" <> "_a".
Proof. repeat split. discriminate. Qed.

(** On such a name only the last step of [toSnakeCase] can act. *)
Lemma toSnakeCase_strips_only (s : string) :
  allb snake_char s = true -> toSnakeCase s = strip_leading_underscore s.
Proof.
  intros H. unfold toSnakeCase.
  now rewrite (underscore_uppercase_id s H), (toLowerCase_id s H).
Qed.

Lemma is_underscore_eq (c : ascii) : is_underscore c = true -> c = "_"%char.
Proof.
  unfold is_underscore, code. intros E. apply N.eqb_eq in E.
  rewrite <- (ascii_N_embedding c), E. reflexivity.
Qed.

(** C4 (amended): for every string [s] of lowercase letters, digits and
    underscores only, [toSnakeCase s = s] when [s] does not begin with an
    underscore; when it does, [toSnakeCase s] is [s] without that first
    underscore. *)
Theorem toSnakeCase_on_lowercase (s : string) :
  allb snake_char s = true ->
  ((forall r, s <> String "_" r) -> toSnakeCase s = s) /\
  (forall r, s = String "_" r -> toSnakeCase s = r).
Proof.
  intros H. rewrite (toSnakeCase_strips_only s H). split.
  - intros Hne. destruct s as [|c r]; simpl; [reflexivity|].
    destruct (is_underscore c) eqn:E; [|reflexivity].
    exfalso. apply (Hne r). f_equal. now apply is_underscore_eq.
  - intros r ->. reflexivity.
Qed.

Lemma toSnakeCase_on_lowercase_witness :
  toSnakeCase "user_id" = "user_id" /\ toSnakeCase "_id" = "id".
Proof.
  split.
  - apply (proj1 (toSnakeCase_on_lowercase "user_id" eq_refl)).
    intros r; discriminate.
  - apply (proj2 (toSnakeCase_on_lowercase "_id" eq_refl) "id" eq_refl).
Defined.

(** Every snake_case name is a fixed point of [toSnakeCase]: a valid key is
    never offered another spelling. *)
Corollary toSnakeCase_isSnakeCase (s : string) :
  isSnakeCase s = true -> toSnakeCase s = s.
Proof.
  intros H. destruct s as [|c r]; [discriminate|].
  simpl in H. apply andb_true_iff in H as [Hl Hr].
  rewrite toSnakeCase_strips_only.
  - simpl. destruct (is_underscore c) eqn:E; [|reflexivity].
    apply is_underscore_eq in E. subst. discriminate.
  - simpl. unfold snake_char at 1. rewrite Hl. exact Hr.
Qed.

(** ** The call classifier *)

Lemma isLoggerCall_inv (n : node) :
  isLoggerCall n = true <->
  exists object method computed args,
    n = member_call object method computed args /\
    (object = "logger" \/ object = "log") /\ In method logMethods.
Proof.
  split.
  - destruct n as [| | | | | | | |callee args|]; try discriminate.
    destruct callee as [| | | | | | |object property computed| |];
      try discriminate.
    destruct object as [name| | | | | | | | |]; try discriminate.
    cbn -[String.eqb includes].
    destruct (String.eqb name "logger" || String.eqb name "log") eqn:E;
      [|discriminate].
    destruct property as [method| | | | | | | | |]; try discriminate.
    intros H. exists name, method, computed, args.
    split; [reflexivity|split].
    + apply orb_true_iff in E as [E|E]; apply String.eqb_eq in E; auto.
    + exact (proj1 (includes_In logMethods method) H).
  - intros (object & method & computed & args & -> & Ho & Hm).
    apply includes_In in Hm. simpl.
    destruct Ho as [-> | ->]; exact Hm.
Qed.

(** [isLoggerErrorCall] singles out the log calls whose method is [error] or
    [fatal]. *)
Lemma isLoggerErrorCall_spec (n : node) :
  ErrorRequiresErr.isLoggerErrorCall n = true <->
  isLoggerCall n = true /\
  (callee_property_name n = "error" \/ callee_property_name n = "fatal").
Proof.
  split.
  - destruct n as [| | | | | | | |callee args|]; try discriminate.
    destruct callee as [| | | | | | |object property computed| |];
      try discriminate.
    destruct object as [name| | | | | | | | |]; try discriminate.
    cbn -[String.eqb includes].
    destruct (String.eqb name "logger" || String.eqb name "log");
      [|discriminate].
    destruct property as [method| | | | | | | | |]; try discriminate.
    intros H. apply orb_true_iff in H as [H|H]; apply String.eqb_eq in H;
      subst; simpl; auto.
  - intros [H Hm]. apply isLoggerCall_inv in H
      as (object & method & computed & args & -> & Ho & _).
    simpl in *. destruct Ho as [-> | ->], Hm as [-> | ->]; reflexivity.
Qed.

Lemma not_logger_call_silent (n : node) :
  isLoggerCall n = false ->
  forall blocked naming, run_all blocked naming n = [].
Proof.
  intros H blocked naming. unfold run_all.
  unfold NoSensitiveData.create, NoStringConcat.create, FieldNaming.create,
    RequiresMessage.create, ErrorRequiresErr.create.
  rewrite H. simpl.
  destruct (ErrorRequiresErr.isLoggerErrorCall n) eqn:E; [|reflexivity].
  apply isLoggerErrorCall_spec in E as [E _]. congruence.
Qed.

(** C2, as stated, fails: in [logger[info]()] the bracketed expression is the
    bare identifier [info]; the call is classified as a log call and the
    message rule reports it. *)
Lemma computed_identifier_is_classified :
  isLoggerCall (member_call "logger" "info" true []) = true /\
  RequiresMessage.create (member_call "logger" "info" true []) =
    [RequiresMessage.missingMessage (member_call "logger" "info" true [])
       "info"].
Proof. split; reflexivity. Qed.

(** C2 (amended): a call whose callee is a computed property access is a log
    call exactly when the base is the bare identifier [logger] or [log] and
    the bracketed expression is itself a bare identifier named as one of the
    six methods; for every other computed callee the classifier answers
    [false], and whenever it answers [false] no rule reports anything. *)
Theorem computed_callee_classification (object property : node)
    (args : list node) :
  let call := CallExpression (MemberExpression object property true) args in
  (isLoggerCall call = true <->
   exists base method,
     object = Identifier base /\ (base = "logger" \/ base = "log") /\
     property = Identifier method /\ In method logMethods) /\
  ((forall method, In method logMethods -> property <> Identifier method) ->
   isLoggerCall call = false) /\
  (isLoggerCall call = false ->
   forall blocked naming, run_all blocked naming call = []).
Proof.
  intros call. assert (Hiff : isLoggerCall call = true <->
    exists base method,
      object = Identifier base /\ (base = "logger" \/ base = "log") /\
      property = Identifier method /\ In method logMethods).
  { rewrite isLoggerCall_inv. split.
    - intros (o & m & c & a & E & Ho & Hm). injection E as -> -> _ _.
      exists o, m. auto.
    - intros (o & m & -> & Ho & -> & Hm). exists o, m, true, args. auto. }
  split; [exact Hiff|]. split.
  - intros Hno. destruct (isLoggerCall call) eqn:E; [|reflexivity].
    destruct (proj1 Hiff eq_refl) as (o & m & _ & _ & -> & Hm).
    exfalso. exact (Hno m Hm eq_refl).
  - apply not_logger_call_silent.
Qed.

(** The bracketed string literal of [logger['info']()] never qualifies. *)
Example computed_string_literal_not_classified :
  isLoggerCall
    (CallExpression
       (MemberExpression (Identifier "logger") (Literal (LString "info")) true)
       []) = false.
Proof. reflexivity. Qed.

(** ** Rule: requires-message *)

(** C8: on a log call the message rule reports (once, the [missingMessage]
    of the call's method) exactly when the call has no argument, or has one
    argument and that is an object literal; a single string literal, a single
    argument of any other shape, and two or more arguments are not
    reported. *)
Theorem message_presence (n : node) :
  isLoggerCall n = true ->
  (RequiresMessage.create n =
     [RequiresMessage.missingMessage n (callee_property_name n)] \/
   RequiresMessage.create n = []) /\
  (RequiresMessage.create n <> [] <->
   arguments_of n = [] \/
   exists properties, arguments_of n = [ObjectExpression properties]).
Proof.
  intros H. unfold RequiresMessage.create. rewrite H.
  cbn -[callee_property_name arguments_of].
  destruct (arguments_of n) as [|firstArg [|second rest]].
  - split; [now left|]. split; [now left | discriminate].
  - destruct firstArg; (split; [auto|]); split;
      try (intros [E | [properties E]]; discriminate);
      try (intros E; now elim E);
      try discriminate.
    intros _. right. eexists. reflexivity.
  - split; [now right|]. split; [intros E; now elim E|].
    intros [E | [properties E]]; discriminate.
Qed.

Lemma message_presence_witness :
  RequiresMessage.create
    (member_call "logger" "info" false
       [ObjectExpression
          [Property (Identifier "user_id") (Literal (LNumber "1")) false]])
  <> [].
Proof.
  apply (message_presence
           (member_call "logger" "info" false
              [ObjectExpression
                 [Property (Identifier "user_id") (Literal (LNumber "1"))
                    false]]));
    [reflexivity|].
  right. eexists. reflexivity.
Defined.

(** The message-only form and the two-argument form pass. *)
Example message_only_passes :
  RequiresMessage.create
    (member_call "logger" "error" false [Literal (LString "failed")]) = [] /\
  RequiresMessage.create
    (member_call "log" "warn" false [Identifier "fields"; Identifier "msg"])
  = [].
Proof. split; reflexivity. Qed.

(** ** Rule: no-string-concat *)

Import NoStringConcat.

Lemma check_argument_spec (arg : node) :
  check_argument arg =
  if hasVariableInterpolation arg then [concat_report arg] else [].
Proof.
  destruct arg as [| |quasis expressions|operator l r| | | | | |];
    try reflexivity.
  destruct expressions; reflexivity.
Qed.

Lemma flat_map_check_argument (args : list node) :
  flat_map check_argument args =
  map concat_report (filter hasVariableInterpolation args).
Proof.
  induction args as [|arg args IH]; [reflexivity|].
  cbn [flat_map filter]. rewrite check_argument_spec, IH.
  destruct (hasVariableInterpolation arg); reflexivity.
Qed.

(** C9: on a log call the structured-logging rule reports, in order and at
    every argument position, one [noTemplateLiteral] per template literal with
    at least one interpolated expression and one [noStringConcat] per binary
    [+] expression whatever its operands; a template literal without
    interpolation and every other argument is passed over, and no report
    carries a fix. *)
Theorem structured_logging (n : node) :
  isLoggerCall n = true ->
  NoStringConcat.create n =
    map concat_report (filter hasVariableInterpolation (arguments_of n)) /\
  (forall quasis expressions,
     hasVariableInterpolation (TemplateLiteral quasis expressions) = true <->
     expressions <> []) /\
  (forall l r, hasVariableInterpolation (BinaryExpression "+" l r) = true) /\
  (forall arg,
     hasVariableInterpolation arg = true ->
     (exists quasis expressions, arg = TemplateLiteral quasis expressions) \/
     (exists l r, arg = BinaryExpression "+" l r)) /\
  (forall r, In r (NoStringConcat.create n) -> r_fix r = None).
Proof.
  intros H.
  assert (E : NoStringConcat.create n =
    map concat_report (filter hasVariableInterpolation (arguments_of n))).
  { unfold NoStringConcat.create. rewrite H. apply flat_map_check_argument. }
  split; [exact E|]. split; [|split; [|split]].
  - intros quasis expressions. destruct expressions; simpl.
    + split; [discriminate | intros X; now elim X].
    + split; [discriminate | reflexivity].
  - reflexivity.
  - intros arg. destruct arg as [| |quasis expressions|operator l r| | | | | |];
      try discriminate.
    + intros _. left. eauto.
    + cbn -[String.eqb]. intros Hop. apply String.eqb_eq in Hop. subst.
      right. eauto.
  - intros r. rewrite E. intros Hin. apply in_map_iff in Hin as [arg [<- _]].
    destruct arg; reflexivity.
Qed.

Lemma structured_logging_witness :
  NoStringConcat.create
    (member_call "logger" "warn" false
       [ Literal (LString "x");
         TemplateLiteral ["User "; " did X"] [Identifier "id"];
         TemplateLiteral ["plain"] [];
         BinaryExpression "+" (Literal (LNumber "1")) (Literal (LNumber "2")) ])
  = [ mkReport (TemplateLiteral ["User "; " did X"] [Identifier "id"])
        (MessageId "noTemplateLiteral" []) None;
      mkReport
        (BinaryExpression "+" (Literal (LNumber "1")) (Literal (LNumber "2")))
        (MessageId "noStringConcat" []) None ].
Proof.
  exact (proj1 (structured_logging
                  (member_call "logger" "warn" false
                     [ Literal (LString "x");
                       TemplateLiteral ["User "; " did X"] [Identifier "id"];
                       TemplateLiteral ["plain"] [];
                       BinaryExpression "+" (Literal (LNumber "1"))
                         (Literal (LNumber "2")) ])
                  eq_refl)).
Defined.

(** ** Rule: error-requires-err *)

Import ErrorRequiresErr.

Lemma hasErrProperty_false (properties : list node) :
  hasErrProperty (Some (ObjectExpression properties)) = false <->
  no_err_key properties.
Proof.
  unfold no_err_key. cbn [hasErrProperty].
  induction properties as [|prop properties IH].
  - split; [intros _ name value computed [] | reflexivity].
  - cbn [existsb]. rewrite orb_false_iff, IH. split.
    + intros [Hp Hrest] name value computed [-> | Hin].
      * apply orb_false_iff in Hp as [H1 H2].
        apply String.eqb_neq in H1, H2. auto.
      * eauto.
    + intros H. split.
      * destruct prop as [| | | | |key value computed| | | |]; try reflexivity.
        destruct key as [name| | | | | | | | |]; try reflexivity.
        destruct (H name value computed (or_introl eq_refl)) as [H1 H2].
        apply String.eqb_neq in H1, H2. now rewrite H1, H2.
      * intros name value computed Hin. apply (H name value computed).
        now right.
Qed.

(** C7, as stated, fails: in [logger.error({ [err]: e }, 'failed')] the only
    key is computed, so no property has a plain identifier key [err] or
    [error]; the key node is the [Identifier] [err] all the same, which is
    all [hasErrProperty] looks at, and the rule reports nothing. *)
Lemma computed_err_key_is_accepted :
  isLoggerCall
    (member_call "logger" "error" false
       [ObjectExpression [Property (Identifier "err") (Identifier "e") true];
        Literal (LString "failed")]) = true /\
  callee_property_name
    (member_call "logger" "error" false
       [ObjectExpression [Property (Identifier "err") (Identifier "e") true];
        Literal (LString "failed")]) = "error" /\
  existsb plain_err_key
    [Property (Identifier "err") (Identifier "e") true] = false /\
  ErrorRequiresErr.create
    (member_call "logger" "error" false
       [ObjectExpression [Property (Identifier "err") (Identifier "e") true];
        Literal (LString "failed")]) = [].
Proof. repeat split. Qed.

(** C7 (amended): on a log call whose method is [error] or [fatal] the
    error-object rule reports (once, [missingErrObject] at the call) exactly
    when the call has no argument, or its first argument is a string literal,
    or its first argument is an object literal none of whose properties has
    as key node an [Identifier] spelled exactly [err] or [error], be the key
    written plainly or in brackets as a computed key; every other first
    argument is passed over. *)
Theorem error_object_required (n : node) :
  isLoggerCall n = true ->
  callee_property_name n = "error" \/ callee_property_name n = "fatal" ->
  (ErrorRequiresErr.create n = [missingErrObject n] \/
   ErrorRequiresErr.create n = []) /\
  (ErrorRequiresErr.create n <> [] <->
   arguments_of n = [] \/
   (exists s rest, arguments_of n = Literal (LString s) :: rest) \/
   (exists properties rest,
      arguments_of n = ObjectExpression properties :: rest /\
      no_err_key properties)).
Proof.
  intros Hcall Hmethod.
  assert (He : isLoggerErrorCall n = true)
    by (apply isLoggerErrorCall_spec; auto).
  unfold ErrorRequiresErr.create. rewrite He. cbn [negb].
  destruct (arguments_of n) as [|firstArg rest];
    cbn [hd_error is_string_literal].
  - split; [now left|]. split; [now left | discriminate].
  - destruct firstArg as [|value| | |properties| | | | |];
      try (split; [now right|]; split; [intros X; now elim X|];
           intros [X | [(s & r & X) | (p & r & X & _)]]; discriminate).
    + destruct value;
        try (split; [now right|]; split; [intros X; now elim X|];
             intros [X | [(s & r & X) | (p & r & X & _)]]; discriminate).
      split; [now left|]. split; [|discriminate].
      intros _. right. left. eauto.
    + destruct (hasErrProperty (Some (ObjectExpression properties))) eqn:E;
        cbn [negb].
      * split; [now right|]. split; [intros X; now elim X|].
        intros [X | [(s & r & X) | (p & r & X & Hno)]]; try discriminate.
        injection X as -> _. apply hasErrProperty_false in Hno. congruence.
      * split; [now left|]. split; [|discriminate].
        intros _. right. right. exists properties, rest.
        split; [reflexivity|]. now apply hasErrProperty_false.
Qed.

Lemma error_object_required_witness :
  ErrorRequiresErr.create
    (member_call "logger" "error" false
       [ObjectExpression
          [Property (Identifier "message") (Identifier "m") false;
           Property (Identifier "Err") (Identifier "e") false];
        Literal (LString "operation failed")])
  <> [].
Proof.
  apply (error_object_required
           (member_call "logger" "error" false
              [ObjectExpression
                 [Property (Identifier "message") (Identifier "m") false;
                  Property (Identifier "Err") (Identifier "e") false];
               Literal (LString "operation failed")])
           eq_refl (or_introl eq_refl)).
  right. right. eexists. eexists. split; [reflexivity|].
  intros name value computed [E | [E | []]]; injection E as <- _ _;
    split; discriminate.
Defined.

Example error_scenarios :
  ErrorRequiresErr.create
    (member_call "logger" "error" false [Literal (LString "failed")])
  = [missingErrObject
       (member_call "logger" "error" false [Literal (LString "failed")])] /\
  ErrorRequiresErr.create
    (member_call "logger" "fatal" false
       [ObjectExpression [Property (Identifier "err") (Identifier "e") false];
        Literal (LString "failed")])
  = [] /\
  ErrorRequiresErr.create (member_call "logger" "error" false [Identifier "e"])
  = [] /\
  ErrorRequiresErr.create
    (member_call "logger" "info" false [Literal (LString "failed")])
  = [].
Proof. repeat split. Qed.

(** C10: on a log call whose method is [error] or [fatal] and whose first
    argument is a template literal, with or without interpolated expressions,
    the error-object rule reports nothing: its string branch asks for a
    [Literal] with a string value. *)
Theorem template_first_argument_passes (n : node) (quasis : list string)
    (expressions rest : list node) :
  isLoggerCall n = true ->
  callee_property_name n = "error" \/ callee_property_name n = "fatal" ->
  arguments_of n = TemplateLiteral quasis expressions :: rest ->
  ErrorRequiresErr.create n = [].
Proof.
  intros Hcall Hmethod Hargs.
  assert (He : isLoggerErrorCall n = true)
    by (apply isLoggerErrorCall_spec; auto).
  unfold ErrorRequiresErr.create. rewrite He, Hargs. reflexivity.
Qed.

Lemma template_first_argument_passes_witness :
  ErrorRequiresErr.create
    (member_call "logger" "error" false [TemplateLiteral ["failed"] []]) = [].
Proof.
  exact (template_first_argument_passes
           (member_call "logger" "error" false [TemplateLiteral ["failed"] []])
           ["failed"] [] [] eq_refl (or_introl eq_refl) eq_refl).
Defined.

(** ** Rule: field-naming *)

Lemma check_property_report (convention : string) (prop : node) (r : report) :
  In r (FieldNaming.check_property convention prop) ->
  exists fieldName value computed,
    prop = Property (Identifier fieldName) value computed /\
    includes standardFields fieldName = false /\
    checkNaming convention fieldName = false /\
    r = mkReport (Identifier fieldName)
          (MessageId "incorrectNaming"
             [ ("fieldName", fieldName); ("convention", convention);
               ("suggestion", getSuggestion convention fieldName) ])
          (if negb (String.eqb (getSuggestion convention fieldName) fieldName)
              && checkNaming convention (getSuggestion convention fieldName)
           then Some (replaceText (Identifier fieldName)
                        (getSuggestion convention fieldName))
           else None).
Proof.
  destruct prop as [| | | | |key value computed| | | |]; try (intros []).
  destruct key as [fieldName| | | | | | | | |]; try (intros []).
  cbn -[includes standardFields checkNaming getSuggestion String.eqb].
  destruct (includes standardFields fieldName) eqn:Hstd; [intros []|].
  destruct (checkNaming convention fieldName) eqn:Hok; [intros []|].
  cbn [negb]. intros [<- | []].
  exists fieldName, value, computed. auto.
Qed.

(** C5: whenever the naming rule reports a key, the report carries a fix
    only if the suggestion differs from the key and itself passes the
    configured convention check, and the fix then replaces the key by that
    suggestion; so an applied fix always yields a name that passes the check.
    Under [camelCase] the suggestion is the key itself and no report carries
    a fix. *)
Theorem naming_fix_sound (options : option FieldNaming.Options) (n : node)
    (r : report) :
  In r (FieldNaming.create options n) ->
  let convention := convention_of options in
  (exists fieldName,
     r_node r = Identifier fieldName /\
     checkNaming convention fieldName = false /\
     forall target text,
       r_fix r = Some (replaceText target text) ->
       target = Identifier fieldName /\
       text = getSuggestion convention fieldName /\
       text <> fieldName /\
       checkNaming convention text = true) /\
  (convention = "camelCase" -> r_fix r = None).
Proof.
  intros Hin convention. unfold FieldNaming.create in Hin.
  destruct (isLoggerCall n); [|destruct Hin]. cbn [negb] in Hin.
  destruct (arguments_of n) as [|firstArg rest]; [destruct Hin|].
  destruct firstArg as [| | | |properties| | | | |]; try (destruct Hin).
  apply in_flat_map in Hin as [prop [_ Hin]].
  apply check_property_report in Hin
    as (fieldName & value & computed & _ & _ & Hbad & ->).
  fold convention in Hbad |- *. cbn [r_node r_fix]. split.
  - exists fieldName. split; [reflexivity|]. split; [exact Hbad|].
    intros target text.
    destruct (negb (String.eqb (getSuggestion convention fieldName) fieldName))
      eqn:Hdiff; [|discriminate].
    destruct (checkNaming convention (getSuggestion convention fieldName))
      eqn:Hok; [|discriminate].
    cbn [andb]. intros E. injection E as <- <-.
    apply negb_true_iff, String.eqb_neq in Hdiff. auto.
  - intros Hcamel. unfold getSuggestion. rewrite Hcamel.
    cbn -[checkNaming]. rewrite String.eqb_refl. reflexivity.
Qed.

Lemma naming_fix_sound_witness :
  (exists fieldName,
     Identifier "userId" = Identifier fieldName /\
     checkNaming "snake_case" fieldName = false /\
     forall target text,
       Some (replaceText (Identifier "userId") "user_id") =
         Some (replaceText target text) ->
       target = Identifier fieldName /\
       text = getSuggestion "snake_case" fieldName /\
       text <> fieldName /\
       checkNaming "snake_case" text = true) /\
  ("snake_case" = "camelCase" ->
   Some (replaceText (Identifier "userId") "user_id") = None).
Proof.
  apply (naming_fix_sound None
           (member_call "logger" "info" false
              [ObjectExpression
                 [Property (Identifier "userId") (Literal (LNumber "1")) false];
               Literal (LString "x")])
           (mkReport (Identifier "userId")
              (MessageId "incorrectNaming"
                 [ ("fieldName", "userId"); ("convention", "snake_case");
                   ("suggestion", "user_id") ])
              (Some (replaceText (Identifier "userId") "user_id")))).
  left. reflexivity.
Defined.

(** The scenario of the specification: [userId] is reported with the fix
    [user_id], which is snake_case; under [camelCase] the key [user_id] is
    reported without a fix. *)
Example naming_scenarios :
  FieldNaming.create None
    (member_call "logger" "info" false
       [ObjectExpression
          [Property (Identifier "userId") (Literal (LNumber "1")) false];
        Literal (LString "x")])
  = [mkReport (Identifier "userId")
       (MessageId "incorrectNaming"
          [ ("fieldName", "userId"); ("convention", "snake_case");
            ("suggestion", "user_id") ])
       (Some (replaceText (Identifier "userId") "user_id"))] /\
  isSnakeCase "user_id" = true /\
  FieldNaming.create (Some {| convention := Some "camelCase" |})
    (member_call "logger" "info" false
       [ObjectExpression
          [Property (Identifier "user_id") (Literal (LNumber "1")) false];
        Literal (LString "x")])
  = [mkReport (Identifier "user_id")
       (MessageId "incorrectNaming"
          [ ("fieldName", "user_id"); ("convention", "camelCase");
            ("suggestion", "user_id") ])
       None].
Proof. repeat split. Qed.

(** A suggestion that is not snake_case itself is reported without a fix. *)
Example naming_no_fix_when_suggestion_fails :
  FieldNaming.check_property "snake_case"
    (Property (Identifier "__id") (Identifier "x") false)
  = [mkReport (Identifier "__id")
       (MessageId "incorrectNaming"
          [ ("fieldName", "__id"); ("convention", "snake_case");
            ("suggestion", "_id") ])
       None].
Proof. reflexivity. Qed.

(** ** Rule: no-sensitive-data *)

Import NoSensitiveData.

Lemma check_patterns_spec (patterns : list string) (prop : node)
    (name keyName : string) :
  check_patterns patterns prop name keyName =
  if existsb (fun pattern => test_i pattern keyName) patterns
  then [mkReport prop (potentially_sensitive_message name) None]
  else [].
Proof.
  induction patterns as [|pattern more IH]; [reflexivity|].
  cbn [check_patterns existsb].
  destruct (test_i pattern keyName); [reflexivity | exact IH].
Qed.

Lemma create_on_object (options : option NoSensitiveData.Options) (n : node)
    (properties rest : list node) :
  isLoggerCall n = true ->
  arguments_of n = ObjectExpression properties :: rest ->
  NoSensitiveData.create options n =
  flat_map NoSensitiveData.check_property properties.
Proof.
  intros H Hargs. unfold NoSensitiveData.create. rewrite H, Hargs.
  reflexivity.
Qed.



(** The key is matched in lower case, the message quotes it as written. *)
Example security_scenarios :
  NoSensitiveData.check_property
    (Property (Identifier "PassWord") (Identifier "p") false)
  = [mkReport (Property (Identifier "PassWord") (Identifier "p") false)
       (Message
          "Sensitive field 'PassWord' should not be logged. Use serializers to redact sensitive data.")
       None] /\
  NoSensitiveData.check_property
    (Property (Identifier "apiKeyId") (Identifier "k") false)
  = [mkReport (Property (Identifier "apiKeyId") (Identifier "k") false)
       (Message
          "Potentially sensitive field 'apiKeyId' detected. Use serializers if this contains sensitive data.")
       None] /\
  NoSensitiveData.check_property
    (Property (Literal (LString "password")) (Identifier "p") false) = [] /\
  NoSensitiveData.check_property (SpreadElement (Identifier "fields")) = [].
Proof. repeat split. Qed.

(** *** The [blockedFields] option *)

(** The handler that [create] returns is the same for every configuration. *)
Lemma create_ignores_options (options : option NoSensitiveData.Options)
    (n : node) :
  NoSensitiveData.create options n = NoSensitiveData.create None n.
Proof. reflexivity. Qed.

(** C1 fails on the code: with [blockedFields: ['Email', 'my_custom_secret']]
    the list [allBlockedFields] that [create] builds holds [email], yet
    [logger.info({ email: x }, 'login')] is not reported; and the configured
    name [my_custom_secret] gets the softer pattern report only. *)
Theorem blockedFields_not_consulted :
  let options :=
    Some {| blockedFields := Some ["Email"; "my_custom_secret"] |} in
  let field name := Property (Identifier name) (Identifier "x") false in
  let call name :=
    member_call "logger" "info" false
      [ObjectExpression [field name]; Literal (LString "login")] in
  includes (allBlockedFields options) (toLowerCase "email") = true /\
  NoSensitiveData.create options (call "email") = [] /\
  includes (allBlockedFields options) (toLowerCase "my_custom_secret") = true /\
  NoSensitiveData.create options (call "my_custom_secret") =
    [mkReport (field "my_custom_secret")
       (potentially_sensitive_message "my_custom_secret") None].
Proof. repeat split. Qed.

(** ** The five rules together: the scenarios of the specification *)

(** [logger.info({ password: x }, 'login')]: the hard security violation and
    nothing else. *)
Example scenario_password :
  run_all None None
    (member_call "logger" "info" false
       [ObjectExpression
          [Property (Identifier "password") (Identifier "x") false];
        Literal (LString "login")])
  = [mkReport (Property (Identifier "password") (Identifier "x") false)
       (sensitive_message "password") None].
Proof. reflexivity. Qed.

(** [logger.error('failed')]: the error-object rule reports, the message rule
    does not. *)
Example scenario_error_string :
  run_all None None
    (member_call "logger" "error" false [Literal (LString "failed")])
  = [missingErrObject
       (member_call "logger" "error" false [Literal (LString "failed")])].
Proof. reflexivity. Qed.

(** [logger.info({ user_id: 1 })]: the message is missing. *)
Example scenario_missing_message :
  run_all None None
    (member_call "logger" "info" false
       [ObjectExpression
          [Property (Identifier "user_id") (Literal (LNumber "1")) false]])
  = [RequiresMessage.missingMessage
       (member_call "logger" "info" false
          [ObjectExpression
             [Property (Identifier "user_id") (Literal (LNumber "1")) false]])
       "info"].
Proof. reflexivity. Qed.

(** A call on another object is no log call. *)
Example scenario_console :
  run_all None None
    (member_call "console" "error" false [Literal (LString "failed")]) = [].
Proof. reflexivity. Qed.

(** * Further properties of the rules *)

(** ** The case analyser, continued *)

Lemma toLowerCase_char_not_upper (c : ascii) :
  is_upper (toLowerCase_char c) = false.
Proof. each_char c. Qed.

Lemma camel_char_lowered (c : ascii) :
  camel_char c = true -> snake_char (toLowerCase_char c) = true.
Proof. each_char c. Qed.

Lemma lower_char_facts (c : ascii) :
  is_lower c = true ->
  is_upper c = false /\ toLowerCase_char c = c /\ is_underscore c = false.
Proof. each_char c. Qed.

Lemma upper_char_facts (c : ascii) :
  is_upper c = true ->
  is_lower c = false /\ is_lower (toLowerCase_char c) = true.
Proof. each_char c. Qed.

Lemma toLowerCase_no_upper (s : string) :
  allb (fun c => negb (is_upper c)) (toLowerCase s) = true.
Proof.
  induction s as [|c r IH]; [reflexivity|].
  simpl. now rewrite toLowerCase_char_not_upper, IH.
Qed.

Lemma allb_strip (p : ascii -> bool) (s : string) :
  allb p s = true -> allb p (strip_leading_underscore s) = true.
Proof.
  destruct s as [|c r]; [reflexivity|]. simpl.
  destruct (is_underscore c); [|trivial].
  intros H. apply andb_true_iff in H. tauto.
Qed.

(** X1: whatever the name, [toSnakeCase] returns a string without any of the
    letters [A-Z]. *)
Theorem toSnakeCase_no_uppercase (s : string) :
  allb (fun c => negb (is_upper c)) (toSnakeCase s) = true.
Proof.
  unfold toSnakeCase. apply allb_strip, toLowerCase_no_upper.
Qed.

(** The tail of a camelCase or PascalCase name becomes a run of snake_case
    characters. *)
Lemma snake_tail (r : string) :
  allb camel_char r = true ->
  allb snake_char (toLowerCase (underscore_uppercase r)) = true.
Proof.
  induction r as [|c r IH]; [reflexivity|].
  cbn [allb underscore_uppercase]. intros H.
  apply andb_true_iff in H as [Hc Hr].
  destruct (is_upper c); cbn [toLowerCase allb];
    rewrite (camel_char_lowered c Hc), (IH Hr); reflexivity.
Qed.

Lemma toSnakeCase_camel_shape (c : ascii) (r : string) :
  is_lower c = true ->
  toSnakeCase (String c r) = String c (toLowerCase (underscore_uppercase r)).
Proof.
  intros Hl. destruct (lower_char_facts c Hl) as (Hu & Hfix & Hnu).
  unfold toSnakeCase. cbn [underscore_uppercase]. rewrite Hu.
  cbn [toLowerCase strip_leading_underscore]. now rewrite Hfix, Hnu.
Qed.

Lemma toSnakeCase_pascal_shape (c : ascii) (r : string) :
  is_upper c = true ->
  toSnakeCase (String c r) =
  String (toLowerCase_char c) (toLowerCase (underscore_uppercase r)).
Proof.
  intros Hu. unfold toSnakeCase. cbn [underscore_uppercase]. rewrite Hu.
  reflexivity.
Qed.

Lemma toSnakeCase_converts (s : string) :
  isCamelCase s = true \/ isPascalCase s = true ->
  isSnakeCase (toSnakeCase s) = true.
Proof.
  destruct s as [|c r]; [intros [H|H]; discriminate|].
  intros [H|H]; simpl in H; apply andb_true_iff in H as [Hc Hr].
  - rewrite (toSnakeCase_camel_shape c r Hc). simpl. rewrite Hc.
    exact (snake_tail r Hr).
  - rewrite (toSnakeCase_pascal_shape c r Hc). simpl.
    rewrite (proj2 (upper_char_facts c Hc)). exact (snake_tail r Hr).
Qed.

(** X2: [toSnakeCase] turns every camelCase name and every PascalCase name
    into a snake_case name, on which a second [toSnakeCase] changes
    nothing. *)
Theorem toSnakeCase_of_camel_or_pascal (s : string) :
  isCamelCase s = true \/ isPascalCase s = true ->
  isSnakeCase (toSnakeCase s) = true /\
  toSnakeCase (toSnakeCase s) = toSnakeCase s.
Proof.
  intros H. pose proof (toSnakeCase_converts s H) as Hsnake.
  split; [exact Hsnake|].
  now apply toSnakeCase_isSnakeCase.
Qed.

Lemma toSnakeCase_of_camel_or_pascal_witness :
  (isSnakeCase (toSnakeCase "requestId") = true /\
   toSnakeCase (toSnakeCase "requestId") = toSnakeCase "requestId") /\
  (isSnakeCase (toSnakeCase "UserID") = true /\
   toSnakeCase (toSnakeCase "UserID") = toSnakeCase "UserID").
Proof.
  split.
  - exact (toSnakeCase_of_camel_or_pascal "requestId" (or_introl eq_refl)).
  - exact (toSnakeCase_of_camel_or_pascal "UserID" (or_intror eq_refl)).
Defined.

(** X3: a PascalCase name is neither snake_case nor camelCase, and no
    snake_case or camelCase name is PascalCase: the first character decides. *)
Theorem pascal_excludes_snake_and_camel (s : string) :
  (isPascalCase s = true -> isSnakeCase s = false /\ isCamelCase s = false) /\
  (isSnakeCase s = true \/ isCamelCase s = true -> isPascalCase s = false).
Proof.
  destruct s as [|c r]; [split; [discriminate | reflexivity]|].
  simpl. split.
  - intros H. apply andb_true_iff in H as [Hu _].
    now rewrite (proj1 (upper_char_facts c Hu)).
  - intros [H|H]; apply andb_true_iff in H as [Hl _];
      now rewrite (proj1 (lower_char_facts c Hl)).
Qed.

(** ** Rule: field-naming, continued *)

Lemma naming_report_origin (options : option FieldNaming.Options) (n : node)
    (r : report) :
  In r (FieldNaming.create options n) ->
  isLoggerCall n = true /\
  exists properties rest prop,
    arguments_of n = ObjectExpression properties :: rest /\
    In prop properties /\
    In r (FieldNaming.check_property (convention_of options) prop).
Proof.
  unfold FieldNaming.create. destruct (isLoggerCall n); [|intros []].
  cbn [negb]. destruct (arguments_of n) as [|firstArg rest]; [intros []|].
  destruct firstArg as [| | | |properties| | | | |]; try (intros []).
  intros Hin. apply in_flat_map in Hin as [prop [Hprop Hin]].
  split; [reflexivity|]. exists properties, rest, prop. auto.
Qed.

Lemma naming_property_at_most_one (convention : string) (prop : node) :
  List.length (FieldNaming.check_property convention prop) <= 1.
Proof.
  destruct prop as [| | | | |key value computed| | | |];
    try (cbn; lia).
  destruct key as [fieldName| | | | | | | | |]; try (cbn; lia).
  cbn -[includes standardFields checkNaming getSuggestion String.eqb].
  destruct (includes standardFields fieldName); [cbn; lia|].
  destruct (checkNaming convention fieldName); cbn [negb List.length]; lia.
Qed.

Lemma flat_map_length_le {A B : Type} (f : A -> list B) (l : list A) :
  (forall x, List.length (f x) <= 1) ->
  List.length (flat_map f l) <= List.length l.
Proof.
  intros Hf. induction l as [|x l IH]; simpl; [lia|].
  rewrite length_app. specialize (Hf x). lia.
Qed.

(** X4: every report of the naming rule is anchored at the identifier key of
    a property of the first argument of a log call; the key is none of the
    nine standard fields and fails the configured convention; and there are
    no more reports than properties. *)
Theorem naming_reports_anchored (options : option FieldNaming.Options)
    (n : node) :
  (forall r,
     In r (FieldNaming.create options n) ->
     isLoggerCall n = true /\
     exists properties rest fieldName value computed,
       arguments_of n = ObjectExpression properties :: rest /\
       In (Property (Identifier fieldName) value computed) properties /\
       r_node r = Identifier fieldName /\
       ~ In fieldName standardFields /\
       checkNaming (convention_of options) fieldName = false) /\
  List.length (FieldNaming.create options n) <=
    match arguments_of n with
    | ObjectExpression properties :: _ => List.length properties
    | _ => 0
    end.
Proof.
  split.
  - intros r Hin.
    apply naming_report_origin in Hin
      as (Hcall & properties & rest & prop & Hargs & Hprop & Hin).
    split; [exact Hcall|].
    apply check_property_report in Hin
      as (fieldName & value & computed & -> & Hstd & Hbad & ->).
    exists properties, rest, fieldName, value, computed.
    repeat (split; trivial).
    intros Hmem. apply includes_In in Hmem. congruence.
  - unfold FieldNaming.create. destruct (isLoggerCall n); simpl; [|lia].
    destruct (arguments_of n) as [|firstArg rest]; simpl; [lia|].
    destruct firstArg; simpl; try lia.
    apply flat_map_length_le. intros prop.
    apply naming_property_at_most_one.
Qed.

(** X5: a fix, once applied, settles the key: the replacement text, as the
    key of a property, is not reported by the naming rule any more. *)
Theorem naming_fix_converges (options : option FieldNaming.Options)
    (n : node) (r : report) (target : node) (text : string) :
  In r (FieldNaming.create options n) ->
  r_fix r = Some (replaceText target text) ->
  forall value computed,
    FieldNaming.check_property (convention_of options)
      (Property (Identifier text) value computed) = [].
Proof.
  intros Hin Hfix value computed.
  apply naming_report_origin in Hin as (_ & _ & _ & prop & _ & _ & Hin).
  apply check_property_report in Hin as (fieldName & _ & _ & _ & _ & _ & ->).
  cbn [r_fix] in Hfix.
  destruct (negb (String.eqb (getSuggestion (convention_of options) fieldName)
                    fieldName)); [|discriminate].
  destruct (checkNaming (convention_of options)
              (getSuggestion (convention_of options) fieldName)) eqn:Hok;
    [|discriminate].
  cbn [andb] in Hfix. injection Hfix as _ <-.
  cbn -[includes standardFields checkNaming getSuggestion].
  destruct (includes standardFields _); [reflexivity|].
  rewrite Hok. reflexivity.
Qed.

Lemma naming_fix_converges_witness :
  FieldNaming.check_property "snake_case"
    (Property (Identifier "user_id") (Literal (LNumber "1")) false) = [].
Proof.
  apply (naming_fix_converges None
           (member_call "logger" "info" false
              [ObjectExpression
                 [Property (Identifier "userId") (Literal (LNumber "1")) false];
               Literal (LString "x")])
           (mkReport (Identifier "userId")
              (MessageId "incorrectNaming"
                 [ ("fieldName", "userId"); ("convention", "snake_case");
                   ("suggestion", "user_id") ])
              (Some (replaceText (Identifier "userId") "user_id")))
           (Identifier "userId") "user_id").
  - left. reflexivity.
  - reflexivity.
Defined.

Lemma standard_fields_snake (fieldName : string) :
  includes standardFields fieldName = true -> isSnakeCase fieldName = true.
Proof.
  intros H. apply includes_In in H. unfold standardFields in H.
  repeat (destruct H as [<- | H]; [reflexivity|]). destruct H.
Qed.

(** X6: under snake_case every camelCase or PascalCase key of the first
    argument that is not snake_case already is reported with a fix, and the
    fix puts [toSnakeCase] of the key, a snake_case name, in its place. *)
Theorem naming_fix_offered (options : option FieldNaming.Options) (n : node)
    (properties rest : list node) (fieldName : string) (value : node)
    (computed : bool) :
  convention_of options = "snake_case" ->
  isLoggerCall n = true ->
  arguments_of n = ObjectExpression properties :: rest ->
  In (Property (Identifier fieldName) value computed) properties ->
  isCamelCase fieldName = true \/ isPascalCase fieldName = true ->
  isSnakeCase fieldName = false ->
  In (mkReport (Identifier fieldName)
        (MessageId "incorrectNaming"
           [ ("fieldName", fieldName); ("convention", "snake_case");
             ("suggestion", toSnakeCase fieldName) ])
        (Some (replaceText (Identifier fieldName) (toSnakeCase fieldName))))
     (FieldNaming.create options n) /\
  isSnakeCase (toSnakeCase fieldName) = true.
Proof.
  intros Hconv Hcall Hargs Hprop Hcase Hbad.
  pose proof (toSnakeCase_converts fieldName Hcase) as Hgood.
  split; [|exact Hgood].
  unfold FieldNaming.create. rewrite Hconv, Hcall, Hargs. cbn [negb].
  apply in_flat_map. eexists. split; [exact Hprop|].
  cbn -[includes standardFields checkNaming getSuggestion String.eqb].
  destruct (includes standardFields fieldName) eqn:Hstd.
  { apply standard_fields_snake in Hstd. congruence. }
  change (getSuggestion "snake_case" fieldName) with (toSnakeCase fieldName).
  change (checkNaming "snake_case" fieldName) with (isSnakeCase fieldName).
  change (checkNaming "snake_case" (toSnakeCase fieldName))
    with (isSnakeCase (toSnakeCase fieldName)).
  rewrite Hbad, Hgood.
  destruct (String.eqb (toSnakeCase fieldName) fieldName) eqn:E.
  { apply String.eqb_eq in E. rewrite E in Hgood. congruence. }
  left. reflexivity.
Qed.

Lemma naming_fix_offered_witness :
  In (mkReport (Identifier "RequestID")
        (MessageId "incorrectNaming"
           [ ("fieldName", "RequestID"); ("convention", "snake_case");
             ("suggestion", toSnakeCase "RequestID") ])
        (Some (replaceText (Identifier "RequestID")
                 (toSnakeCase "RequestID"))))
     (FieldNaming.create None
        (member_call "log" "debug" false
           [ObjectExpression
              [Property (Identifier "ok") (Identifier "a") false;
               Property (Identifier "RequestID") (Identifier "b") false]])) /\
  isSnakeCase (toSnakeCase "RequestID") = true.
Proof.
  apply (naming_fix_offered None
           (member_call "log" "debug" false
              [ObjectExpression
                 [Property (Identifier "ok") (Identifier "a") false;
                  Property (Identifier "RequestID") (Identifier "b") false]])
           [Property (Identifier "ok") (Identifier "a") false;
            Property (Identifier "RequestID") (Identifier "b") false]
           [] "RequestID" (Identifier "b") false);
    try reflexivity.
  - right. left. reflexivity.
  - right. reflexivity.
Defined.

Lemma flat_map_nil {A B : Type} (f : A -> list B) (l : list A) :
  (forall x, f x = []) -> flat_map f l = [].
Proof.
  intros Hf. induction l as [|x l IH]; simpl; [reflexivity|].
  now rewrite Hf, IH.
Qed.

(** X7: the [convention] option at its edges.  Without options, without a
    [convention], or with an empty one, the rule is the snake_case rule; with
    a convention that is neither [snake_case] nor [camelCase] it reports
    nothing, whatever the keys. *)
Theorem naming_convention_edges (n : node) :
  let snake := FieldNaming.create (Some {| convention := Some "snake_case" |}) in
  FieldNaming.create None n = snake n /\
  FieldNaming.create (Some {| convention := None |}) n = snake n /\
  FieldNaming.create (Some {| convention := Some "" |}) n = snake n /\
  (forall c,
     c <> "" -> c <> "snake_case" -> c <> "camelCase" ->
     FieldNaming.create (Some {| convention := Some c |}) n = []).
Proof.
  intros snake. repeat (split; [reflexivity|]).
  intros c He Hs Hc. unfold FieldNaming.create, convention_of.
  apply String.eqb_neq in He, Hs, Hc. rewrite He.
  destruct (isLoggerCall n); [|reflexivity]. cbn [negb].
  destruct (arguments_of n) as [|firstArg rest]; [reflexivity|].
  destruct firstArg; try reflexivity.
  apply flat_map_nil. intros prop.
  destruct prop as [| | | | |key value computed| | | |]; try reflexivity.
  destruct key; try reflexivity.
  cbn -[includes standardFields String.eqb].
  destruct (includes standardFields name); [reflexivity|].
  unfold checkNaming. rewrite Hs, Hc. reflexivity.
Qed.

(** ** Rule: no-sensitive-data, continued *)

(** *** The pattern search *)

Lemma prefix_i_spec (p s : string) :
  prefix_i p s = true <->
  exists m rest, s = (m ++ rest)%string /\ same_i p m = true.
Proof.
  revert s. induction p as [|a p IH]; intros s.
  - split; [|reflexivity]. intros _. exists "", s. auto.
  - destruct s as [|b s]; cbn [prefix_i].
    + split; [discriminate|].
      intros (m & rest & E & Hm). destruct m; [discriminate Hm|discriminate E].
    + rewrite andb_true_iff, IH. split.
      * intros (Hab & m & rest & -> & Hm). exists (String b m), rest.
        cbn [same_i]. rewrite Hab, Hm. auto.
      * intros (m & rest & E & Hm). destruct m as [|b' m]; [discriminate Hm|].
        cbn [same_i] in Hm. apply andb_true_iff in Hm as [Hab Hm].
        injection E as <- ->. eauto.
Qed.

Lemma test_i_spec (source s : string) :
  test_i source s = true <->
  exists before m rest,
    s = (before ++ m ++ rest)%string /\ same_i source m = true.
Proof.
  induction s as [|c s IH]; cbn [test_i].
  - rewrite orb_false_r, prefix_i_spec. split.
    + intros (m & rest & E & Hm). exists "", m, rest. auto.
    + intros (before & m & rest & E & Hm).
      destruct before; [|discriminate E]. simpl in E. eauto.
  - rewrite orb_true_iff, prefix_i_spec, IH. split.
    + intros [(m & rest & E & Hm) | (before & m & rest & -> & Hm)].
      * exists "", m, rest. auto.
      * exists (String c before), m, rest. auto.
    + intros (before & m & rest & E & Hm). destruct before as [|c' before].
      * left. simpl in E. eauto.
      * right. injection E as _ ->. eauto.
Qed.

Lemma lower_upper_is_upper (a : ascii) :
  is_lower a = true -> is_upper (ascii_upper a) = true.
Proof. each_char a. Qed.

Lemma allb_app (p : ascii -> bool) (a b : string) :
  allb p (a ++ b)%string = allb p a && allb p b.
Proof.
  induction a as [|c a IH]; [reflexivity|]. simpl.
  now rewrite IH, andb_assoc.
Qed.

Lemma same_i_refl (p : string) : same_i p p = true.
Proof.
  induction p as [|a p IH]; [reflexivity|]. cbn [same_i].
  unfold ci_eq. now rewrite Ascii.eqb_refl, IH.
Qed.

Lemma not_upper_letter_is_lower (b : ascii) :
  is_upper b = false -> is_upper (ascii_upper b) = true -> is_lower b = true.
Proof. each_char b. Qed.

Lemma lower_from_upper (a : ascii) :
  is_lower a = true -> ascii_of_N (code (ascii_upper a) + 32) = a.
Proof. each_char a. Qed.

(** Between a lowercase word and a string without capitals, [same_i] is
    equality. *)
Lemma same_i_lowercase_eq (p m : string) :
  allb is_lower p = true ->
  allb (fun c => negb (is_upper c)) m = true ->
  same_i p m = true -> m = p.
Proof.
  revert m. induction p as [|a p IH]; intros [|b m]; try discriminate.
  - reflexivity.
  - cbn [allb same_i]. intros Hp Hm Hs.
    apply andb_true_iff in Hp as [Ha Hp], Hm as [Hb Hm], Hs as [Hab Hs].
    rewrite (IH m Hp Hm Hs). f_equal.
    unfold ci_eq in Hab. apply Ascii.eqb_eq in Hab.
    apply negb_true_iff in Hb.
    assert (Hlb : is_lower b = true).
    { apply (not_upper_letter_is_lower b Hb).
      rewrite <- Hab. now apply lower_upper_is_upper. }
    rewrite <- (lower_from_upper a Ha), <- (lower_from_upper b Hlb).
    now rewrite Hab.
Qed.

Lemma toLowerCase_app (a b : string) :
  toLowerCase (a ++ b)%string = (toLowerCase a ++ toLowerCase b)%string.
Proof.
  induction a as [|c a IH]; [reflexivity|]. simpl. now rewrite IH.
Qed.

Lemma letter_lowered_same (b : ascii) :
  is_upper (ascii_upper b) = true ->
  ascii_upper (toLowerCase_char b) = ascii_upper b.
Proof. each_char b. Qed.

Lemma same_i_lowered (p m : string) :
  allb is_lower p = true -> same_i p m = true ->
  same_i p (toLowerCase m) = true.
Proof.
  revert m. induction p as [|a p IH]; intros [|b m]; try discriminate.
  - reflexivity.
  - cbn [allb same_i toLowerCase]. intros Hp Hm.
    apply andb_true_iff in Hp as [Ha Hp], Hm as [Hab Hm].
    rewrite (IH m Hp Hm), andb_true_r. unfold ci_eq in *.
    apply Ascii.eqb_eq in Hab. apply Ascii.eqb_eq.
    rewrite letter_lowered_same; [exact Hab|].
    rewrite <- Hab. now apply lower_upper_is_upper.
Qed.

Lemma patterns_lowercase (pattern : string) :
  In pattern SENSITIVE_PATTERNS -> allb is_lower pattern = true.
Proof.
  unfold SENSITIVE_PATTERNS. intros H.
  repeat (destruct H as [<- | H]; [reflexivity|]). destruct H.
Qed.

(** X9: a key that contains the word of one of the six patterns, in any mix
    of upper and lower case and anywhere in the name, is reported exactly
    once: with the hard violation if its lower-cased name is in the exact
    list, with the "potentially sensitive" one otherwise. *)
Theorem pattern_word_is_reported (pattern before m rest : string)
    (value : node) (computed : bool) :
  In pattern SENSITIVE_PATTERNS ->
  same_i pattern m = true ->
  let name := (before ++ m ++ rest)%string in
  let prop := Property (Identifier name) value computed in
  NoSensitiveData.check_property prop =
    [mkReport prop
       (if includes SENSITIVE_FIELD_NAMES (toLowerCase name)
        then sensitive_message name
        else potentially_sensitive_message name)
       None].
Proof.
  intros Hin Hm name prop. unfold prop, NoSensitiveData.check_property.
  cbv zeta. rewrite check_patterns_spec.
  destruct (includes SENSITIVE_FIELD_NAMES (toLowerCase name));
    [reflexivity|].
  assert (Hex : existsb (fun p => test_i p (toLowerCase name))
                  SENSITIVE_PATTERNS = true).
  { apply existsb_exists. exists pattern. split; [exact Hin|].
    apply test_i_spec.
    exists (toLowerCase before), (toLowerCase m), (toLowerCase rest).
    split.
    - unfold name. now rewrite !toLowerCase_app.
    - apply same_i_lowered; [now apply patterns_lowercase | exact Hm]. }
  rewrite Hex. reflexivity.
Qed.

Lemma pattern_word_is_reported_witness :
  NoSensitiveData.check_property
    (Property (Identifier "userAuthToKEn_v2") (Identifier "t") false) =
  [mkReport (Property (Identifier "userAuthToKEn_v2") (Identifier "t") false)
     (potentially_sensitive_message "userAuthToKEn_v2") None].
Proof.
  apply (pattern_word_is_reported "token" "userAuth" "ToKEn" "_v2"
           (Identifier "t") false).
  - right. right. left. reflexivity.
  - reflexivity.
Defined.

Lemma pattern_found_iff (keyName : string) :
  allb (fun c => negb (is_upper c)) keyName = true ->
  (existsb (fun pattern => test_i pattern keyName) SENSITIVE_PATTERNS = true
   <->
   exists pattern before rest,
     In pattern SENSITIVE_PATTERNS /\
     keyName = (before ++ pattern ++ rest)%string).
Proof.
  intros Hlow. rewrite existsb_exists. split.
  - intros (pattern & Hin & Ht).
    apply test_i_spec in Ht as (before & m & rest & E & Hm).
    exists pattern, before, rest. split; [exact Hin|].
    rewrite E in Hlow. rewrite !allb_app in Hlow.
    apply andb_true_iff in Hlow as [_ Hlow].
    apply andb_true_iff in Hlow as [Hlow _].
    rewrite <- (same_i_lowercase_eq pattern m
                  (patterns_lowercase pattern Hin) Hlow Hm).
    exact E.
  - intros (pattern & before & rest & Hin & E). exists pattern.
    split; [exact Hin|]. apply test_i_spec.
    exists before, pattern, rest. split; [exact E | apply same_i_refl].
Qed.

(** X8: a property with an identifier key gets the "potentially sensitive"
    violation exactly when its lower-cased key is not in the exact list and
    contains one of the six words as a substring; it gets no report exactly
    when the lower-cased key is not in the exact list and contains none of
    them. *)
Theorem heuristic_layer_is_substring_search (name : string) (value : node)
    (computed : bool) :
  let prop := Property (Identifier name) value computed in
  let contains_word :=
    exists pattern before rest,
      In pattern SENSITIVE_PATTERNS /\
      toLowerCase name = (before ++ pattern ++ rest)%string in
  (NoSensitiveData.check_property prop =
     [mkReport prop (potentially_sensitive_message name) None] <->
   ~ In (toLowerCase name) SENSITIVE_FIELD_NAMES /\ contains_word) /\
  (NoSensitiveData.check_property prop = [] <->
   ~ In (toLowerCase name) SENSITIVE_FIELD_NAMES /\ ~ contains_word).
Proof.
  intros prop contains_word.
  pose proof (pattern_found_iff (toLowerCase name)
                (toLowerCase_no_upper name)) as Hfound.
  fold contains_word in Hfound.
  pose proof (includes_In SENSITIVE_FIELD_NAMES (toLowerCase name)) as Hexact.
  unfold prop, NoSensitiveData.check_property. rewrite check_patterns_spec.
  destruct (includes SENSITIVE_FIELD_NAMES (toLowerCase name)).
  - split; (split; [|intros [Hno _]; exfalso; apply Hno; now apply Hexact]).
    + intros E. injection E as E. discriminate E.
    + discriminate.
  - assert (Hno : ~ In (toLowerCase name) SENSITIVE_FIELD_NAMES).
    { intros Hin. apply Hexact in Hin. discriminate. }
    destruct (existsb _ SENSITIVE_PATTERNS).
    + split; (split; [|]).
      * intros _. split; [exact Hno | now apply Hfound].
      * reflexivity.
      * discriminate.
      * intros [_ Hnone]. exfalso. apply Hnone. now apply Hfound.
    + split; (split; [|]).
      * discriminate.
      * intros [_ Hc]. apply Hfound in Hc. discriminate.
      * intros _. split; [exact Hno|]. intros Hc. apply Hfound in Hc.
        discriminate.
      * reflexivity.
Qed.

(** *** What the rule reads and what it reports *)

Lemma security_property_at_most_one (prop : node) :
  List.length (NoSensitiveData.check_property prop) <= 1.
Proof.
  destruct prop as [| | | | |key value computed| | | |]; try (cbn; lia).
  destruct key as [name| | | | | | | | |]; try (cbn; lia).
  unfold NoSensitiveData.check_property. rewrite check_patterns_spec.
  destruct (includes SENSITIVE_FIELD_NAMES (toLowerCase name)); [cbn; lia|].
  destruct (existsb _ SENSITIVE_PATTERNS); cbn; lia.
Qed.

Lemma security_property_report (prop : node) (r : report) :
  In r (NoSensitiveData.check_property prop) ->
  exists name value computed,
    prop = Property (Identifier name) value computed /\
    r_node r = prop /\ r_fix r = None /\
    (r_message r = sensitive_message name \/
     r_message r = potentially_sensitive_message name).
Proof.
  destruct prop as [| | | | |key value computed| | | |]; try (intros []).
  destruct key as [name| | | | | | | | |]; try (intros []).
  unfold NoSensitiveData.check_property. rewrite check_patterns_spec.
  intros Hin. exists name, value, computed. split; [reflexivity|].
  destruct (includes SENSITIVE_FIELD_NAMES (toLowerCase name)).
  - destruct Hin as [<- | []]. auto.
  - destruct (existsb _ SENSITIVE_PATTERNS); [|destruct Hin].
    destruct Hin as [<- | []]. auto.
Qed.

(** X10: every report of the security rule is anchored at a property of the
    first argument of a log call, a property with an identifier key; it
    carries one of the two messages, quoting the key as written, and never a
    fix; and there are no more reports than properties. *)
Theorem security_reports_anchored (options : option NoSensitiveData.Options)
    (n : node) :
  (forall r,
     In r (NoSensitiveData.create options n) ->
     isLoggerCall n = true /\
     exists properties rest name value computed,
       arguments_of n = ObjectExpression properties :: rest /\
       r_node r = Property (Identifier name) value computed /\
       In (r_node r) properties /\
       r_fix r = None /\
       (r_message r = sensitive_message name \/
        r_message r = potentially_sensitive_message name)) /\
  List.length (NoSensitiveData.create options n) <=
    match arguments_of n with
    | ObjectExpression properties :: _ => List.length properties
    | _ => 0
    end.
Proof.
  unfold NoSensitiveData.create.
  destruct (isLoggerCall n); [|split; [intros r [] | simpl; lia]].
  cbn [negb].
  destruct (arguments_of n) as [|firstArg rest];
    [split; [intros r [] | simpl; lia]|].
  destruct firstArg as [| | | |properties| | | | |];
    try (split; [intros r [] | simpl; lia]).
  cbn [checkObjectForSensitiveData]. split.
  - intros r Hin. apply in_flat_map in Hin as [prop [Hprop Hin]].
    split; [reflexivity|].
    apply security_property_report in Hin
      as (name & value & computed & -> & Hnode & Hfix & Hmsg).
    exists properties, rest, name, value, computed.
    rewrite Hnode. auto.
  - apply flat_map_length_le. exact security_property_at_most_one.
Qed.

Lemma security_messages_of_key (prop : node) :
  map r_message (NoSensitiveData.check_property prop) =
  match key_name prop with
  | Some name =>
      map r_message
        (NoSensitiveData.check_property
           (Property (Identifier name) (OtherNode "") false))
  | None => []
  end.
Proof.
  destruct prop as [| | | | |key value computed| | | |]; try reflexivity.
  destruct key as [name| | | | | | | | |]; try reflexivity.
  unfold key_name, NoSensitiveData.check_property.
  rewrite !check_patterns_spec.
  destruct (includes SENSITIVE_FIELD_NAMES (toLowerCase name));
    [reflexivity|].
  destruct (existsb _ SENSITIVE_PATTERNS); reflexivity.
Qed.

Lemma security_messages_of_keys (properties : list node) :
  map r_message (flat_map NoSensitiveData.check_property properties) =
  flat_map
    (fun name =>
       map r_message
         (NoSensitiveData.check_property
            (Property (Identifier name) (OtherNode "") false)))
    (identifier_keys properties).
Proof.
  induction properties as [|prop properties IH]; [reflexivity|].
  unfold identifier_keys in *. cbn [flat_map].
  rewrite map_app, flat_map_app, IH, (security_messages_of_key prop).
  destruct (key_name prop); [|reflexivity].
  cbn [flat_map]. now rewrite app_nil_r.
Qed.

(** X11: the security rule reads nothing but the identifier keys of the first
    argument.  Two log calls whose first arguments are object literals with
    the same identifier keys in the same order get the same messages: the
    values under the keys (nested objects included), spread elements and
    properties with other kinds of key, wherever they stand, the later
    arguments, the method and the configuration make no difference. *)
Theorem security_reads_keys_only
    (options options' : option NoSensitiveData.Options) (n n' : node)
    (properties properties' rest rest' : list node) :
  isLoggerCall n = true -> isLoggerCall n' = true ->
  arguments_of n = ObjectExpression properties :: rest ->
  arguments_of n' = ObjectExpression properties' :: rest' ->
  identifier_keys properties = identifier_keys properties' ->
  map r_message (NoSensitiveData.create options n) =
  map r_message (NoSensitiveData.create options' n').
Proof.
  intros Hn Hn' Hargs Hargs' Hkeys.
  rewrite (create_on_object options n properties rest Hn Hargs).
  rewrite (create_on_object options' n' properties' rest' Hn' Hargs').
  now rewrite !security_messages_of_keys, Hkeys.
Qed.

Lemma security_reads_keys_only_witness :
  map r_message
    (NoSensitiveData.create None
       (member_call "logger" "info" false
          [ObjectExpression
             [SpreadElement (Identifier "rest");
              Property (Identifier "password")
                (ObjectExpression
                   [Property (Identifier "token") (Identifier "t") false])
                false;
              Property (Literal (LString "secret")) (Identifier "s") false];
           Literal (LString "login")])) =
  map r_message
    (NoSensitiveData.create
       (Some {| blockedFields := Some ["user"] |})
       (member_call "log" "error" false
          [ObjectExpression
             [Property (Identifier "password") (Identifier "p") true]])).
Proof.
  apply (security_reads_keys_only None
           (Some {| blockedFields := Some ["user"] |})
           (member_call "logger" "info" false
              [ObjectExpression
                 [SpreadElement (Identifier "rest");
                  Property (Identifier "password")
                    (ObjectExpression
                       [Property (Identifier "token") (Identifier "t") false])
                    false;
                  Property (Literal (LString "secret")) (Identifier "s")
                    false];
               Literal (LString "login")])
           (member_call "log" "error" false
              [ObjectExpression
                 [Property (Identifier "password") (Identifier "p") true]])
           [SpreadElement (Identifier "rest");
            Property (Identifier "password")
              (ObjectExpression
                 [Property (Identifier "token") (Identifier "t") false])
              false;
            Property (Literal (LString "secret")) (Identifier "s") false]
           [Property (Identifier "password") (Identifier "p") true]
           [Literal (LString "login")] []);
    reflexivity.
Defined.

(** ** Rule: requires-message, continued *)

(** X13: the message rule makes at most one report for a call; the report is
    anchored at the call itself, has no fix, and names as [method] the method
    of the call, one of the six log methods. *)
Theorem message_report_shape (n : node) :
  List.length (RequiresMessage.create n) <= 1 /\
  forall r,
    In r (RequiresMessage.create n) ->
    r_node r = n /\ r_fix r = None /\
    exists object method computed args,
      n = member_call object method computed args /\
      In method logMethods /\
      r_message r = MessageId "missingMessage" [("method", method)].
Proof.
  unfold RequiresMessage.create.
  destruct (isLoggerCall n) eqn:Hcall; [|split; [simpl; lia | intros r []]].
  apply isLoggerCall_inv in Hcall
    as (object & method & computed & args & -> & _ & Hm).
  cbn [negb]. cbn [member_call arguments_of callee_property_name].
  assert (Hshape : forall r,
    In r [RequiresMessage.missingMessage
            (member_call object method computed args) method] ->
    r_node r = member_call object method computed args /\ r_fix r = None /\
    exists object' method' computed' args',
      member_call object method computed args =
        member_call object' method' computed' args' /\
      In method' logMethods /\
      r_message r = MessageId "missingMessage" [("method", method')]).
  { intros r [<- | []]. split; [reflexivity|]. split; [reflexivity|].
    exists object, method, computed, args. auto. }
  destruct args as [|firstArg [|second more]].
  - split; [simpl; lia | exact Hshape].
  - destruct firstArg; (split; [simpl; lia|]);
      first [exact Hshape | intros r []].
  - split; [simpl; lia | intros r []].
Qed.

(** ** Rule: error-requires-err, continued *)


(** X15: the error-object rule has its own classifier, which accepts exactly
    the log calls of the shared classifier whose method is [error] or
    [fatal]; on every other node, the log calls of the four other methods
    included, the rule reports nothing, and it never reports more than once
    on a node. *)
Theorem error_rule_scope (n : node) :
  (isLoggerErrorCall n = true <->
   isLoggerCall n = true /\
   (callee_property_name n = "error" \/ callee_property_name n = "fatal")) /\
  (isLoggerErrorCall n = false -> ErrorRequiresErr.create n = []) /\
  List.length (ErrorRequiresErr.create n) <= 1.
Proof.
  split; [apply isLoggerErrorCall_spec|]. unfold ErrorRequiresErr.create.
  split.
  - intros ->. reflexivity.
  - destruct (isLoggerErrorCall n); [|simpl; lia]. cbn [negb].
    destruct (hd_error (arguments_of n)) as [firstArg|]; [|simpl; lia].
    destruct firstArg as [|value| | |properties| | | | |]; try (simpl; lia).
    + destruct value; simpl; lia.
    + cbn [is_string_literal].
      destruct (hasErrProperty (Some (ObjectExpression properties)));
        simpl; lia.
Qed.

(** ** The five rules together, continued *)

(** X16: whatever the configuration, a node on which any of the five rules
    reports is a call [logger.m(...)] or [log.m(...)], with brackets or a
    dot, where [m] is one of the six log methods; calls on any other object
    and other methods are never reported. *)
Theorem reports_only_on_log_calls (blocked : option NoSensitiveData.Options)
    (naming : option FieldNaming.Options) (n : node) :
  run_all blocked naming n <> [] ->
  exists object method computed args,
    n = member_call object method computed args /\
    (object = "logger" \/ object = "log") /\
    In method logMethods.
Proof.
  intros Hrep. apply isLoggerCall_inv.
  destruct (isLoggerCall n) eqn:Hcall; [reflexivity|].
  exfalso. apply Hrep. now apply not_logger_call_silent.
Qed.

Lemma reports_only_on_log_calls_witness :
  exists object method computed args,
    member_call "log" "fatal" false [] =
      member_call object method computed args /\
    (object = "logger" \/ object = "log") /\
    In method logMethods.
Proof.
  apply (reports_only_on_log_calls None None
           (member_call "log" "fatal" false [])).
  discriminate.
Defined.
